(** * Sniplates: re-usable template widgets

    A shallow embedding of [sniplates/templatetags/sniplates.py] and the
    properties of its widget resolution and block composition engine.

    The template tags work on a Django rendering [context]: a stack of
    variable dictionaries together with a [render_context], itself a stack of
    dictionaries of which only the top one is ever read.  Both stacks, the
    [BlockContext] objects and the widgets dictionaries are mutable Python
    objects handed around by reference, so the embedding threads one store
    ([Env]) through every operation and keeps objects at addresses. *)

From Stdlib Require Import String Ascii List Lia.
From stdpp Require Import base option list gmap strings.

Local Open Scope string_scope.
Local Open Scope list_scope.

(** ** Exceptions *)

(** The argument of a [%r] conversion.  The source formats either one string
    or the tuple of candidate names; the conversion itself (Python's [repr]) is
    kept symbolic. *)
Inductive fmt_arg : Type :=
| ArgStr (s : string)
| ArgTuple (names : list string).

(** An exception message: literal text, or a format string holding one [%r]
    together with the argument it is applied to. *)
Inductive message : Type :=
| Msg (text : string)
| MsgRepr (fmt : string) (arg : fmt_arg).

Inductive exn : Type :=
| TemplateSyntaxError (msg : message)
| KeyError (key : string)
| AttributeError (attr : string)
| ContextPopException
| HostError (code : nat).

(** ** Data of the host template engine *)

(** Addresses of mutable objects. *)
Abbreviation loc := nat (only parsing).

(** A [{% block %}] node: its name and an identifier of its body. *)
Record BlockNode : Type := mkBlockNode {
  name : string;
  nodelist : nat
}.

(** An [{% extends %}] node, holding the expression naming the parent. *)
Record ExtendsNode : Type := mkExtendsNode {
  parent_name : string
}.

(** A loaded template, seen through the two queries the source makes:
    [nodelist.get_nodes_by_type(BlockNode)] and
    [nodelist.get_nodes_by_type(ExtendsNode)]. *)
Record Template : Type := mkTemplate {
  block_nodes : list BlockNode;
  extends_nodes : list ExtendsNode
}.

(** Values of template variables and of tag arguments. *)
Inductive value : Type :=
| VNone
| VBool (b : bool)
| VStr (s : string)
| VTemplate (t : Template)
| VObj (id : nat).

(** Python truth value. *)
Definition truthy (v : value) : bool :=
  match v with
  | VNone => false
  | VBool b => b
  | VStr s => negb (String.eqb s "")
  | VTemplate _ => true
  | VObj _ => true
  end.

#[global] Instance BlockNode_eq_dec : EqDecision BlockNode.
Proof. solve_decision. Defined.

(** ** parse_widget_name *)

(** [s.split(sep, 1)]: cut at the first separator, if there is one. *)
Fixpoint split_1 (sep : ascii) (s : string) : list string :=
  match s with
  | EmptyString => [EmptyString]
  | String c rest =>
      if Ascii.eqb c sep then [EmptyString; rest]
      else match split_1 sep rest with
           | [] => [String c EmptyString]
           | hd :: tl => String c hd :: tl
           end
  end.

(** Unpacking a sequence into two targets raises [ValueError] unless it has
    exactly two items. *)
Definition unpack_2 {A} (l : list A) : option (A * A) :=
  match l with
  | [a; b] => Some (a, b)
  | _ => None
  end.

Definition double_quote : string := String (ascii_of_nat 34) EmptyString.

Definition widget_name_error : string :=
  "widget name must be " +:+ double_quote +:+ "alias:block_name"
    +:+ double_quote +:+ " - ".

Definition parse_widget_name (widget : string) : exn + (string * string) :=
  match unpack_2 (split_1 ":" widget) with
  | Some (alias, block_name) => inr (alias, block_name)
  | None => inl (TemplateSyntaxError (Msg (widget_name_error +:+ widget)))
  end.

(** Occurrence of a character in a string. *)
Fixpoint occurs (c : ascii) (s : string) : Prop :=
  match s with
  | EmptyString => False
  | String c' rest => c' = c \/ occurs c rest
  end.

(** ** Python dictionaries, as the source iterates over them *)

(** A dictionary that is iterated ([items()]) is an association list with
    distinct keys in insertion order; assigning to a key already there
    replaces its value in place. *)
Fixpoint dict_set {V} (k : string) (v : V) (d : list (string * V))
  : list (string * V) :=
  match d with
  | [] => [(k, v)]
  | (k', v') :: d' =>
      if String.eqb k k' then (k, v) :: d' else (k', v') :: dict_set k v d'
  end.

(** [dict(pairs)]: later pairs overwrite earlier ones. *)
Definition dict {V} (pairs : list (string * V)) : list (string * V) :=
  fold_left (fun d p => dict_set (fst p) (snd p) d) pairs [].

Fixpoint dict_get {V} (k : string) (d : list (string * V)) : option V :=
  match d with
  | [] => None
  | (k', v) :: d' => if String.eqb k k' then Some v else dict_get k d'
  end.

(** [d.pop(k, default)]: the value, and the dictionary without the key. *)
Fixpoint dict_remove {V} (k : string) (d : list (string * V))
  : list (string * V) :=
  match d with
  | [] => []
  | (k', v) :: d' =>
      if String.eqb k k' then d' else (k', v) :: dict_remove k d'
  end.

Definition dict_pop {V} (k : string) (dflt : V) (d : list (string * V))
  : V * list (string * V) :=
  (default dflt (dict_get k d), dict_remove k d).

(** ** BlockContext (django.template.loader_tags) *)

(** Modelled from the spec: [BlockContext], the block registry, is a class of
    the host engine and is missing from the sources.  It keeps, for each
    block name, a queue of definitions; a name without a queue and a name
    with an empty queue behave alike, so the empty queue is the default. *)
Definition queue (blocks : gmap string (list BlockNode)) (block_name : string)
  : list BlockNode :=
  default [] (blocks !! block_name).

(** Modelled from the spec: [add_blocks], missing like its class, adds one
    layer: each new definition goes to the front of the queue of its name, so
    that the definitions of earlier, more specific layers stay behind it. *)
Definition add_blocks (new : list (string * BlockNode))
    (blocks : gmap string (list BlockNode)) : gmap string (list BlockNode) :=
  fold_left
    (fun acc p => <[fst p := snd p :: queue acc (fst p)]> acc) new blocks.

(** Modelled from the spec: [get_block], missing like its class, answers
    with the back of the queue, the definition of the layer added first, or
    with [None] when the name has no definition. *)
Definition get_block (blocks : gmap string (list BlockNode))
    (block_name : string) : option BlockNode :=
  last (queue blocks block_name).

(** ** The rendering environment *)

(** A stack of dictionaries that is never empty: [dicts[-1]] and the
    dictionaries under it, nearest first. *)
Record Stack (A : Type) : Type := mkStack {
  top : A;
  below : list A
}.
Arguments mkStack {A} _ _.
Arguments top {A} _.
Arguments below {A} _.

Definition push {A} (d : A) (s : Stack A) : Stack A :=
  mkStack d (top s :: below s).

(** [pop] refuses to remove the last dictionary ([ContextPopException]). *)
Definition pop {A} (s : Stack A) : option (Stack A) :=
  match below s with
  | [] => None
  | d :: rest => Some (mkStack d rest)
  end.

(** One dictionary of the render context, restricted to the two keys the
    source uses; each holds the address of a mutable object. *)
Record RenderLayer : Type := mkRenderLayer {
  BLOCK_CONTEXT_KEY : option loc;
  WIDGET_CONTEXT_KEY : option loc
}.

Definition empty_layer : RenderLayer := mkRenderLayer None None.

Record Env : Type := mkEnv {
  context : Stack (gmap string value);
  render_context : Stack RenderLayer;
  block_contexts : list (gmap string (list BlockNode));
  widget_dicts : list (gmap string loc)
}.

Definition set_context (c : Stack (gmap string value)) (env : Env) : Env :=
  mkEnv c (render_context env) (block_contexts env) (widget_dicts env).

Definition set_render_context (rc : Stack RenderLayer) (env : Env) : Env :=
  mkEnv (context env) rc (block_contexts env) (widget_dicts env).

Definition set_block_contexts (h : list (gmap string (list BlockNode)))
    (env : Env) : Env :=
  mkEnv (context env) (render_context env) h (widget_dicts env).

Definition set_widget_dicts (h : list (gmap string loc)) (env : Env) : Env :=
  mkEnv (context env) (render_context env) (block_contexts env) h.

(** The object at an address. *)
Definition block_context_at (env : Env) (l : loc)
  : gmap string (list BlockNode) :=
  default ∅ (block_contexts env !! l).

Definition widgets_at (env : Env) (l : loc) : gmap string loc :=
  default ∅ (widget_dicts env !! l).

(** [BlockContext()] and [{}]: a new object at the next free address. *)
Definition new_block_context (env : Env) : loc * Env :=
  (length (block_contexts env),
   set_block_contexts (block_contexts env ++ [∅]) env).

Definition new_widgets (env : Env) : loc * Env :=
  (length (widget_dicts env),
   set_widget_dicts (widget_dicts env ++ [∅]) env).

(** [render_context[KEY]] reads the top dictionary only. *)
Definition active_blocks (env : Env) : option loc :=
  BLOCK_CONTEXT_KEY (top (render_context env)).

Definition active_widgets (env : Env) : option loc :=
  WIDGET_CONTEXT_KEY (top (render_context env)).

(** [render_context[KEY] = v] writes the top dictionary. *)
Definition store_blocks (l : loc) (env : Env) : Env :=
  let rc := render_context env in
  set_render_context
    (mkStack (mkRenderLayer (Some l) (WIDGET_CONTEXT_KEY (top rc))) (below rc))
    env.

Definition store_widgets (l : loc) (env : Env) : Env :=
  let rc := render_context env in
  set_render_context
    (mkStack (mkRenderLayer (BLOCK_CONTEXT_KEY (top rc)) (Some l)) (below rc))
    env.

Definition render_context_push (layer : RenderLayer) (env : Env) : Env :=
  set_render_context (push layer (render_context env)) env.

Definition render_context_pop (env : Env) : option Env :=
  match pop (render_context env) with
  | Some rc => Some (set_render_context rc env)
  | None => None
  end.

(** Variable lookup walks the dictionaries from the top. *)
Definition context_get (key : string) (env : Env) : option value :=
  let c := context env in
  match top c !! key with
  | Some v => Some v
  | None =>
      list_find (fun d : gmap string value => is_Some (d !! key)) (below c)
        ≫= fun found => snd found !! key
  end.

(** [context[key] = v] writes the top dictionary. *)
Definition context_set (key : string) (v : value) (env : Env) : Env :=
  let c := context env in
  set_context (mkStack (<[key := v]> (top c)) (below c)) env.

Definition context_push (d : gmap string value) (env : Env) : Env :=
  set_context (push d (context env)) env.

Definition context_pop (env : Env) : option Env :=
  match pop (context env) with
  | Some c => Some (set_context c env)
  | None => None
  end.

(** ** Computations: state passing with exceptions *)

Definition M (A : Type) : Type := Env -> Env * (exn + A).

Definition ret {A} (a : A) : M A := fun env => (env, inr a).

Definition raise {A} (e : exn) : M A := fun env => (env, inl e).

Definition bind {A B} (m : M A) (k : A -> M B) : M B :=
  fun env =>
    match m env with
    | (env', inr a) => k a env'
    | (env', inl e) => (env', inl e)
    end.

Notation "'let*' x ':=' c 'in' k" := (bind c (fun x => k))
  (at level 10, x pattern, c at level 100, k at level 200).

(** Lifting of a computation that only raises or returns. *)
Definition lift {A} (r : exn + A) : M A := fun env => (env, r).

(** Leaving a [with context.update(...)] block: the dictionary on top is
    popped, whether the body returned or raised. *)
Definition context_exit {A} (outcome : Env * (exn + A)) : Env * (exn + A) :=
  let '(env', r) := outcome in
  match context_pop env' with
  | Some env'' => (env'', r)
  | None => (env', inl ContextPopException)
  end.

(** [with context.update(d): body]. *)
Definition context_update {A} (d : gmap string value) (body : M A) : M A :=
  fun env => context_exit (body (context_push d env)).

(** ** using *)

(** [using] (the name is reserved here, hence the underscore).  The
    generator behind [@contextmanager]: what precedes [yield] runs on
    entry, what follows it runs when the body of the [with] statement
    returns.  When the body raises, the exception is thrown into the generator
    at the [yield]; no handler surrounds it there, so it leaves the generator
    and the statements after the [yield] are not run. *)
Definition using_ {A} (alias : string) (body : M A) : M A :=
  fun env =>
    if String.eqb alias "" then body env
    else
      match active_widgets env with
      | None =>
          raise (TemplateSyntaxError (Msg "No widget libraries loaded!")) env
      | Some widgets =>
          match widgets_at env widgets !! alias with
          | None =>
              raise (TemplateSyntaxError
                       (MsgRepr "No widget library loaded for alias: %r"
                                (ArgStr alias))) env
          | Some block_set =>
              let env1 := render_context_push empty_layer env in
              let env2 := store_blocks block_set env1 in
              let env3 := store_widgets widgets env2 in
              match body env3 with
              | (env4, inr r) =>
                  match render_context_pop env4 with
                  | Some env5 => (env5, inr r)
                  | None => (env4, inl ContextPopException)
                  end
              | (env4, inl e) => (env4, inl e)
              end
          end
      end.

(** ** find_block *)

Fixpoint find_block_loop (block_set : gmap string (list BlockNode))
    (names : list string) : option BlockNode :=
  match names with
  | [] => None
  | block_name :: rest =>
      match get_block block_set block_name with
      | Some block => Some block
      | None => find_block_loop block_set rest
      end
  end.

Definition find_block (names : list string) : M BlockNode :=
  fun env =>
    match active_blocks env with
    | None => raise (KeyError "block_context") env
    | Some l =>
        match find_block_loop (block_context_at env l) names with
        | Some block => ret block env
        | None =>
            raise (TemplateSyntaxError
                     (MsgRepr "No widget found for: %r" (ArgTuple names))) env
        end
    end.

(** ** auto_widget *)

(** The attributes of a bound form field that widget naming reads:
    [field.name], [field.field.__class__.__name__] and
    [field.field.widget.__class__.__name__]. *)
Record BoundField : Type := mkBoundField {
  field_name : string;
  field_class_name : string;
  widget_class_name : string
}.

(** A string with one more character at its end. *)
Fixpoint snoc (s : string) (c : ascii) : string :=
  match s with
  | EmptyString => String c EmptyString
  | String c' s' => String c' (snoc s' c)
  end.

(** [str.format] with keyword arguments [info], for format strings whose replacement fields are
    plain keys in braces.  [key] is [Some k] while a field is being read. *)
Fixpoint format_fields (info : list (string * string)) (fmt : string)
    (key : option string) : option string :=
  match fmt with
  | EmptyString =>
      match key with
      | None => Some EmptyString
      | Some _ => None
      end
  | String c rest =>
      match key with
      | None =>
          if Ascii.eqb c "{" then format_fields info rest (Some EmptyString)
          else String c <$> format_fields info rest None
      | Some k =>
          if Ascii.eqb c "}" then
            match dict_get k info with
            | Some v => String.append v <$> format_fields info rest None
            | None => None
            end
          else format_fields info rest (Some (snoc k c))
      end
  end.

Definition format (fmt : string) (info : list (string * string))
  : option string :=
  format_fields info fmt None.

Definition auto_widget_formats : list string :=
  [ "{field}_{widget}_{name}";
    "{field}_{name}";
    "{widget}_{name}";
    "{field}_{widget}";
    "{name}";
    "{widget}";
    "{field}" ].

Definition auto_widget (field : BoundField) : option (list string) :=
  let info :=
    dict [ ("widget", widget_class_name field);
           ("field", field_class_name field);
           ("name", field_name field) ] in
  mapM (fun fmt => format fmt info) auto_widget_formats.

(** ** The tags that call into the host engine *)

(** A [{% widget %}] node: the expression giving the widget name, the keyword
    expressions, and the variable named after [as], if any. *)
Record Widget : Type := mkWidget {
  widget : string;
  kwargs : list (string * string);
  asvar : option string
}.

(** A [{% nested_widget %}] node carries the nested body as well. *)
Record NestedWidget : Type := mkNestedWidget {
  nested_widget : string;
  nested_nodelist : nat;
  nested_kwargs : list (string * string);
  nested_asvar : option string
}.

(** [if self.asvar:] holds for a name that is not empty. *)
Definition asvar_set (a : option string) : option string :=
  match a with
  | Some v => if String.eqb v "" then None else Some v
  | None => None
  end.

(** [widget.split] exists on strings only. *)
Definition parse_widget_value (v : value) : exn + (string * string) :=
  match v with
  | VStr s => parse_widget_name s
  | _ => inl (AttributeError "split")
  end.

(** [with context.render_context.update(layer): body].  The render context
    is a [RenderContext], and among the host's context classes only [Context]
    has a method [update].  Looking the attribute up comes first in the call
    and raises [AttributeError]: the layer is not built, nothing is pushed and
    the body is not run. *)
Definition render_context_update {A} (layer : Env -> RenderLayer * Env)
    (body : Env -> option (Env * (exn + A))) (env : Env)
  : option (Env * (exn + A)) :=
  Some (env, inl (AttributeError "update")).

(** [_soft and alias in widgets]. *)
Definition soft_skip (_soft : value) (widgets : gmap string loc)
    (alias : string) : bool :=
  truthy _soft && bool_decide (is_Some (widgets !! alias)).

(** [dict((block.name, block) for block in ...)]: the blocks a template
    declares, by name. *)
Definition local_blocks (template : Template) : list (string * BlockNode) :=
  dict (map (fun block => (name block, block)) (block_nodes template)).

Section Host.

(** The services of the host engine: template loading, the parent of an
    [{% extends %}] node, evaluation of a filter expression, and rendering
    of a block and of a node list.  Rendering and evaluation may change
    the environment and may raise.  What the host notes for itself in the
    render context while it looks up a parent, under a key of its own, is
    outside the two keys of [RenderLayer]: [get_parent] stands for the
    lookups of one resolution in a layer. *)
Variable get_template : string -> exn + Template.
Variable get_parent : ExtendsNode -> Env -> exn + Template.
Variable resolve : string -> M value.
Variable block_render : BlockNode -> M string.
Variable nodelist_render : nat -> M string.

(** *** resolve_blocks *)

(** A template given by name is loaded first (the wrapper that newer hosts
    put around a loaded template is looked through); anything that is not a
    template has no [nodelist]. *)
Definition as_template (template : value) : exn + Template :=
  match template with
  | VStr template_name => get_template template_name
  | VTemplate t => inr t
  | _ => inl (AttributeError "nodelist")
  end.

(** The recursion follows the chain of parents, which the host determines;
    [fuel] bounds its depth and [None] means the bound was reached.  The
    [BlockContext] is shared with the recursive call through the render
    context and changed in place, so [blocks] is its address. *)
Fixpoint resolve_blocks (fuel : nat) (template : value) (env : Env)
  : option (Env * (exn + loc)) :=
  match fuel with
  | 0 => None
  | S fuel' =>
      let '(blocks, env) :=
        match active_blocks env with
        | Some l => (l, env)
        | None =>
            let '(l, env') := new_block_context env in
            (l, store_blocks l env')
        end in
      let loaded := as_template template in
      match loaded with
      | inl e => Some (env, inl e)
      | inr template =>
          let env :=
            set_block_contexts
              (alter (add_blocks (local_blocks template)) blocks
                     (block_contexts env))
              env in
          match extends_nodes template with
          | [] => Some (env, inr blocks)
          | extends_node :: _ =>
              match get_parent extends_node env with
              | inl e => Some (env, inl e)
              | inr parent_template =>
                  match resolve_blocks fuel' (VTemplate parent_template) env
                  with
                  | None => None
                  | Some (env', inl e) => Some (env', inl e)
                  | Some (env', inr _) => Some (env', inr blocks)
                  end
              end
          end
      end
  end.

(** *** load_widgets *)

(** The body of the loop for one pair, after the soft test.  It is written to
    push a layer holding a new [BlockContext] on the render context, resolve
    the template into it, store the result under the alias in the shared
    widgets dictionary and pop the layer; the push and the pop are asked of
    [render_context_update]. *)
Definition load_widget (fuel : nat) (widgets : loc) (alias : string)
    (template_name : value) : Env -> option (Env * (exn + unit)) :=
  render_context_update
    (fun env =>
       let '(fresh, env') := new_block_context env in
       (mkRenderLayer (Some fresh) None, env'))
    (fun env =>
       match resolve_blocks fuel template_name env with
       | None => None
       | Some (env', inl e) => Some (env', inl e)
       | Some (env', inr blocks) =>
           Some (set_widget_dicts
                   (alter (insert alias blocks) widgets (widget_dicts env'))
                   env',
                 inr tt)
       end).

Fixpoint load_widgets_loop (fuel : nat) (_soft : value) (widgets : loc)
    (items : list (string * value)) (env : Env)
  : option (Env * (exn + string)) :=
  match items with
  | [] => Some (env, inr "")
  | (alias, template_name) :: rest =>
      if soft_skip _soft (widgets_at env widgets) alias
      then load_widgets_loop fuel _soft widgets rest env
      else
        match load_widget fuel widgets alias template_name env with
        | None => None
        | Some (env', inl e) => Some (env', inl e)
        | Some (env', inr _) =>
            load_widgets_loop fuel _soft widgets rest env'
        end
  end.

Definition load_widgets (fuel : nat) (kwargs : list (string * value))
    (env : Env) : option (Env * (exn + string)) :=
  let '(_soft, kwargs) := dict_pop "_soft" (VBool false) kwargs in
  let '(widgets, env) :=
    match active_widgets env with
    | Some w => (w, env)
    | None =>
        let '(w, env') := new_widgets env in
        (w, store_widgets w env')
    end in
  load_widgets_loop fuel _soft widgets kwargs env.

(** *** Widget.render and NestedWidget.render *)

(** The dictionary comprehension over [self.kwargs.items()]. *)
Fixpoint resolve_kwargs (items : list (string * string))
    (acc : gmap string value) : M (gmap string value) :=
  match items with
  | [] => ret acc
  | (key, val) :: rest =>
      let* v := resolve val in
      resolve_kwargs rest (<[key := v]> acc)
  end.

(** What follows the rendering: bind the result to [asvar] in the top
    dictionary and emit nothing, or emit the result. *)
Definition emit (a : option string) (result : string) : M string :=
  match asvar_set a with
  | Some var => fun env => (context_set var (VStr result) env, inr "")
  | None => ret result
  end.

Definition Widget_render (self : Widget) : M string :=
  let* widget := resolve (widget self) in
  let* (alias, block_name) := lift (parse_widget_value widget) in
  using_ alias
    (let* block := find_block [block_name] in
     let* kwargs := resolve_kwargs (kwargs self) ∅ in
     let* result := context_update kwargs (block_render block) in
     emit (asvar self) result).

(** The part of [NestedWidget.render] under [with context.update(kwargs)]. *)
Definition nested_body (nodelist : nat) (block : BlockNode) : M string :=
  let* content := nodelist_render nodelist in
  context_update {[ "content" := VStr content ]} (block_render block).

Definition NestedWidget_render (self : NestedWidget) : M string :=
  let* widget := resolve (nested_widget self) in
  let* (alias, block_name) := lift (parse_widget_value widget) in
  using_ alias
    (let* block := find_block [block_name] in
     let* kwargs := resolve_kwargs (nested_kwargs self) ∅ in
     let* result :=
       context_update kwargs (nested_body (nested_nodelist self) block) in
     emit (nested_asvar self) result).

(** *** reuse *)

Fixpoint reuse_loop (block_context : gmap string (list BlockNode))
    (block_list : list string) : option BlockNode :=
  match block_list with
  | [] => None
  | block :: rest =>
      match get_block block_context block with
      | Some block => Some block
      | None => reuse_loop block_context rest
      end
  end.

(** [block_list] is one name or a list (or tuple) of names.  Without an
    active [BlockContext] the search runs over a new, empty one that is
    stored nowhere. *)
Definition reuse (block_list : string + list string)
    (kwargs : gmap string value) : M string :=
  fun env =>
    let block_context :=
      match active_blocks env with
      | Some l => block_context_at env l
      | None => ∅
      end in
    let block_list :=
      match block_list with
      | inl one => [one]
      | inr several => several
      end in
    match reuse_loop block_context block_list with
    | None => (env, inr "")
    | Some block => context_update kwargs (block_render block) env
    end.

End Host.

(** ** Inheritance chains *)

(** [extends_chain get_parent t docs]: [docs] lists [t], the parent its first
    [{% extends %}] node resolves to, that template's parent, and so on up
    to a template that extends nothing. *)
Inductive extends_chain (get_parent : ExtendsNode -> Env -> exn + Template)
  : Template -> list Template -> Prop :=
| chain_root t :
    extends_nodes t = [] ->
    extends_chain get_parent t [t]
| chain_extends t extends_node others parent_template rest :
    extends_nodes t = extends_node :: others ->
    (forall env, get_parent extends_node env = inr parent_template) ->
    extends_chain get_parent parent_template rest ->
    extends_chain get_parent t (t :: rest).

(** One layer per document, added in the order of the list. *)
Definition fold_layers (docs : list Template)
    (blocks : gmap string (list BlockNode)) : gmap string (list BlockNode) :=
  fold_left (fun acc doc => add_blocks (local_blocks doc) acc) docs blocks.

(** The definitions of a name along a list of documents, in that order. *)
Definition definitions (block_name : string) (docs : list Template)
  : list BlockNode :=
  omap (fun doc => dict_get block_name (local_blocks doc)) docs.

(** ** States of the render context *)

(** No dictionary of the render context holds a widgets dictionary:
    [load_widgets] has not run in this render. *)
Definition widgets_never_created (env : Env) : Prop :=
  Forall (fun layer => WIDGET_CONTEXT_KEY layer = None)
         (top (render_context env) :: below (render_context env)).

(** The widgets dictionary [load_widgets] works on: the active one, or the
    empty one it creates. *)
Definition widgets_before (env : Env) : gmap string loc :=
  match active_widgets env with
  | Some w => widgets_at env w
  | None => ∅
  end.

(** The scope a loaded alias is run in: a new layer on the render context
    holding the alias's registry and the widgets dictionary. *)
Definition activated (widgets block_set : loc) (env : Env) : Env :=
  store_widgets widgets
    (store_blocks block_set (render_context_push empty_layer env)).




(** ** A page with one widget library, for the examples *)

Definition input_block : BlockNode := mkBlockNode "input" 1.
Definition label_block : BlockNode := mkBlockNode "label" 2.
Definition title_block : BlockNode := mkBlockNode "title" 3.

(** The registry of the library: blocks [input] and [label]. *)
Definition library_blocks : gmap string (list BlockNode) :=
  add_blocks [("input", input_block); ("label", label_block)] ∅.

(** The registry of the page being rendered: block [title]. *)
Definition page_blocks : gmap string (list BlockNode) :=
  add_blocks [("title", title_block)] ∅.

(** The page has loaded the library under the alias [form]: address 0 holds
    the library's registry, address 1 the page's own, which is active. *)
Definition page_env : Env :=
  mkEnv (mkStack ∅ [])
        (mkStack (mkRenderLayer (Some 1) (Some 0)) [])
        [library_blocks; page_blocks]
        [ {[ "form" := 0 ]} ].

(** The same page before any library is loaded. *)
Definition unloaded_env : Env :=
  mkEnv (mkStack ∅ [])
        (mkStack (mkRenderLayer (Some 0) None) [])
        [page_blocks]
        [].

(** A render context on which nothing was stored yet. *)
Definition bare_env : Env :=
  mkEnv (mkStack ∅ []) (mkStack empty_layer []) [] [].

(** ** A host for the examples *)

(** A host for the examples: an expression evaluates to its own text; a block
    renders to its name, followed by the variable [content] when that is
    bound, except that rendering [label] fails; a node list renders to a text
    showing the variable [size]. *)
Definition demo_resolve (expr : string) : M value := ret (VStr expr).

Definition demo_block_render (block : BlockNode) : M string :=
  fun env =>
    if String.eqb (name block) "label" then (env, inl (HostError 1))
    else
      match context_get "content" env with
      | Some (VStr content) =>
          (env, inr (name block +:+ "(" +:+ content +:+ ")"))
      | _ => (env, inr (name block))
      end.

Definition demo_nodelist_render (nodelist : nat) : M string :=
  fun env =>
    match context_get "size" env with
    | Some (VStr size) => (env, inr ("body " +:+ size))
    | _ => (env, inr "body")
    end.

(** The overrides of the nested widget example. *)
Definition demo_overrides : gmap string value := {[ "size" := VStr "7" ]}.

(** ** Three documents, each extending the next *)

Definition base_x : BlockNode := mkBlockNode "x" 10.
Definition base_y : BlockNode := mkBlockNode "y" 11.
Definition middle_y : BlockNode := mkBlockNode "y" 20.
Definition leaf_x : BlockNode := mkBlockNode "x" 30.

Definition base_doc : Template := mkTemplate [base_x; base_y] [].
Definition middle_doc : Template :=
  mkTemplate [middle_y] [mkExtendsNode "base.html"].
Definition leaf_doc : Template :=
  mkTemplate [leaf_x] [mkExtendsNode "middle.html"].

Definition demo_get_template (template_name : string) : exn + Template :=
  if String.eqb template_name "leaf.html" then inr leaf_doc
  else if String.eqb template_name "middle.html" then inr middle_doc
  else if String.eqb template_name "base.html" then inr base_doc
  else inl (HostError 404).

Definition demo_get_parent (node : ExtendsNode) (env : Env)
  : exn + Template :=
  demo_get_template (parent_name node).

(** A render context ready for a resolution: a new registry, at address 2,
    alone in a layer pushed on the example page. *)
Definition resolving_env : Env :=
  render_context_push (mkRenderLayer (Some 2) None)
    (snd (new_block_context page_env)).

(** ** Compilation of the tags *)

(** [pop_asvar]: when the last but one token is [as], the last token is the
    variable name and both are deleted from [bits]; otherwise the answer is
    [None] and [bits] stays.  The list after the call is returned with the
    answer. *)
Definition pop_asvar (bits : list string) : option string * list string :=
  if bool_decide (2 <= length bits) then
    match bits !! (length bits - 2), bits !! (length bits - 1) with
    | Some keyword, Some asvar =>
        if String.eqb keyword "as"
        then (Some asvar, take (length bits - 2) bits)
        else (None, bits)
    | _, _ => (None, bits)
    end
  else (None, bits).

(** What compiling a tag may raise: [IndexError] from [bits.pop(0)] on an
    empty list, which only the second [pop] has a handler for, or an
    exception of the template engine. *)
Inductive compile_error : Type :=
| IndexError
| Raised (e : exn).

Section Compile.

(** The parser of the host engine: compilation of a filter expression, which
    raises the engine's own exceptions only; [token_kwargs], which takes
    [key=value] tokens off [bits] and answers with the keyword expressions and
    what is left of [bits]; and the parse of the nested body up to
    [endnested]. *)
Variable compile_filter : string -> exn + string.
Variable token_kwargs :
  list string -> exn + (list (string * string) * list string).
Variable parse_endnested : exn + nat.

(** The tag function [widget] (the name is taken by the field of the node,
    hence the suffix); [bits] is [token.split_contents()]. *)
Definition widget_tag (bits : list string) : compile_error + Widget :=
  match bits with
  | [] => inl IndexError
  | tag_name :: bits =>
      match bits with
      | [] =>
          inl (Raised (TemplateSyntaxError
                         (Msg (tag_name
                               +:+ " requires one positional argument"))))
      | first :: bits =>
          match compile_filter first with
          | inl e => inl (Raised e)
          | inr widget =>
              let '(asvar, bits) := pop_asvar bits in
              match token_kwargs bits with
              | inl e => inl (Raised e)
              | inr (kwargs, bits) =>
                  match bits with
                  | [] => inr (mkWidget widget kwargs asvar)
                  | _ :: _ =>
                      inl (Raised
                             (TemplateSyntaxError
                                (Msg (tag_name
                                      +:+ " accepts only one positional argument"))))
                  end
              end
          end
      end
  end.

(** The tag function [nested_widget]: the same steps, then the body. *)
Definition nested_widget_tag (bits : list string)
  : compile_error + NestedWidget :=
  match bits with
  | [] => inl IndexError
  | tag_name :: bits =>
      match bits with
      | [] =>
          inl (Raised (TemplateSyntaxError
                         (Msg (tag_name
                               +:+ " requires one positional argument"))))
      | first :: bits =>
          match compile_filter first with
          | inl e => inl (Raised e)
          | inr widget =>
              let '(asvar, bits) := pop_asvar bits in
              match token_kwargs bits with
              | inl e => inl (Raised e)
              | inr (kwargs, bits) =>
                  match bits with
                  | [] =>
                      match parse_endnested with
                      | inl e => inl (Raised e)
                      | inr nodelist =>
                          inr (mkNestedWidget widget nodelist kwargs asvar)
                      end
                  | _ :: _ =>
                      inl (Raised
                             (TemplateSyntaxError
                                (Msg (tag_name
                                      +:+ " accepts only one positional argument"))))
                  end
              end
          end
      end
  end.

End Compile.

(** A parser for the examples: every expression compiles to itself, and the
    keyword tokens are the leading tokens of the form [key=value]. *)
Definition demo_compile_filter (token : string) : exn + string := inr token.

Fixpoint demo_keywords (bits : list string)
  : list (string * string) * list string :=
  match bits with
  | [] => ([], [])
  | bit :: rest =>
      match unpack_2 (split_1 "=" bit) with
      | Some (key, val) =>
          let '(kwargs, remaining) := demo_keywords rest in
          ((key, val) :: kwargs, remaining)
      | None => ([], bits)
      end
  end.

Definition demo_token_kwargs (bits : list string)
  : exn + (list (string * string) * list string) :=
  inr (demo_keywords bits).

(** The example page with a second library, [nav], loaded: its registry, at
    address 2, defines [title] and [input]. *)
Definition nav_input : BlockNode := mkBlockNode "input" 4.

Definition two_libraries_env : Env :=
  mkEnv (mkStack ∅ [])
        (mkStack (mkRenderLayer (Some 1) (Some 0)) [])
        [library_blocks; page_blocks;
         add_blocks [("title", title_block); ("input", nav_input)] ∅]
        [ {[ "form" := 0; "nav" := 2 ]} ].

(** A page whose active registry, at address 0, has blocks named after a
    field, after a widget class and after a field class. *)
Definition email_block : BlockNode := mkBlockNode "email" 5.
Definition text_input_block : BlockNode := mkBlockNode "TextInput" 6.
Definition char_field_block : BlockNode := mkBlockNode "CharField" 7.

Definition fields_env : Env :=
  mkEnv (mkStack ∅ [])
        (mkStack (mkRenderLayer (Some 0) None) [])
        [add_blocks [("CharField", char_field_block);
                     ("TextInput", text_input_block);
                     ("email", email_block)] ∅]
        [].

(** * Properties *)

Lemma split_1_cases sep s :
  (~ occurs sep s /\ split_1 sep s = [s]) \/
  (exists before after,
      s = before +:+ String sep after /\ ~ occurs sep before /\
      split_1 sep s = [before; after]).
Proof.
  induction s as [|c rest IH]; simpl.
  - left. tauto.
  - destruct (Ascii.eqb_spec c sep) as [->|Hne].
    + right. exists EmptyString, rest. simpl. tauto.
    + destruct IH as [[Hno ->]|(before & after & -> & Hno & ->)].
      * left. split; [intros [?|?]; tauto | reflexivity].
      * right. exists (String c before), after. simpl.
        split; [reflexivity|]. split; [|reflexivity].
        intros [?|?]; tauto.
Qed.

Lemma occurs_append c s1 s2 : occurs c s2 -> occurs c (s1 +:+ s2).
Proof. induction s1; simpl; tauto. Qed.

(** C10. A widget reference without [:] is a syntax error; any other
    reference is cut at its first [:] only: the alias is the text before it
    (possibly empty) and the block name is everything after it, further
    colons included. *)
Theorem parse_widget_name_first_colon (widget : string) :
  (~ occurs ":" widget ->
     parse_widget_name widget
     = inl (TemplateSyntaxError (Msg (widget_name_error +:+ widget)))) /\
  (occurs ":" widget ->
     exists alias block_name,
       widget = alias +:+ String ":" block_name /\
       ~ occurs ":" alias /\
       parse_widget_name widget = inr (alias, block_name)).
Proof.
  unfold parse_widget_name.
  destruct (split_1_cases ":" widget)
    as [[Hno ->]|(before & after & -> & Hno & ->)]; simpl.
  - split; [reflexivity | tauto].
  - split.
    + intros H. exfalso. apply H. apply occurs_append. simpl. tauto.
    + intros _. exists before, after. tauto.
Qed.

Lemma parse_widget_name_first_colon_witness :
  parse_widget_name "nocolon"
    = inl (TemplateSyntaxError (Msg (widget_name_error +:+ "nocolon"))) /\
  exists alias block_name,
    "form:a:b" = alias +:+ String ":" block_name /\
    ~ occurs ":" alias /\
    parse_widget_name "form:a:b" = inr (alias, block_name).
Proof.
  split.
  - apply (proj1 (parse_widget_name_first_colon "nocolon")).
    simpl. intros H.
    repeat (destruct H as [H|H]; [discriminate H|]). exact H.
  - apply (proj2 (parse_widget_name_first_colon "form:a:b")).
    simpl. tauto.
Defined.

(** ** Candidate search *)

Lemma find_block_loop_Some block_set names block :
  find_block_loop block_set names = Some block <->
  exists before block_name after,
    names = before ++ block_name :: after /\
    Forall (fun n => get_block block_set n = None) before /\
    get_block block_set block_name = Some block.
Proof.
  induction names as [|n rest IH]; simpl.
  - split; [discriminate|].
    intros (before & ? & ? & Heq & _). destruct before; discriminate Heq.
  - destruct (get_block block_set n) as [b|] eqn:Hn.
    + split.
      * intros [= ->]. exists [], n, rest. auto.
      * intros ([|n' before] & bn & after & Heq & Hall & Hget).
        -- injection Heq as -> ->. congruence.
        -- injection Heq as -> ->. inversion Hall; congruence.
    + rewrite IH. split.
      * intros (before & bn & after & -> & Hall & Hget).
        exists (n :: before), bn, after. auto.
      * intros ([|n' before] & bn & after & Heq & Hall & Hget).
        -- injection Heq as -> ->. congruence.
        -- injection Heq as -> ->. inversion Hall; subst.
           exists before, bn, after. auto.
Qed.

Lemma find_block_loop_None block_set names :
  find_block_loop block_set names = None <->
  Forall (fun n => get_block block_set n = None) names.
Proof.
  induction names as [|n rest IH]; simpl.
  - split; auto.
  - destruct (get_block block_set n) eqn:Hn.
    + split; [discriminate|]. inversion 1; congruence.
    + rewrite IH. split; [auto|]. inversion 1; auto.
Qed.

Lemma reuse_loop_find_block_loop block_context block_list :
  reuse_loop block_context block_list
  = find_block_loop block_context block_list.
Proof.
  induction block_list as [|n rest IH]; simpl; [reflexivity|].
  destruct (get_block block_context n); auto.
Qed.

(** C5. With a registry active, [find_block] probes it with the candidates
    in the order given and returns the first definition found; it raises the
    error [No widget found for: <names>], carrying the candidates, exactly
    when no candidate has a definition.  The environment is left as it
    was. *)
Theorem find_block_first_match (names : list string) (env : Env) (l : loc) :
  active_blocks env = Some l ->
  (forall block,
      find_block names env = (env, inr block) <->
      exists before block_name after,
        names = before ++ block_name :: after /\
        Forall (fun n => get_block (block_context_at env l) n = None) before /\
        get_block (block_context_at env l) block_name = Some block) /\
  (find_block names env
     = (env, inl (TemplateSyntaxError
                    (MsgRepr "No widget found for: %r" (ArgTuple names))))
   <-> Forall (fun n => get_block (block_context_at env l) n = None) names) /\
  ((exists block, find_block names env = (env, inr block)) \/
   find_block names env
     = (env, inl (TemplateSyntaxError
                    (MsgRepr "No widget found for: %r" (ArgTuple names))))).
Proof.
  intros Hactive. unfold find_block, raise, ret. rewrite Hactive.
  destruct (find_block_loop (block_context_at env l) names) as [b|] eqn:Hloop.
  - split; [|split].
    + intros block. rewrite <- find_block_loop_Some, Hloop.
      split; congruence.
    + rewrite <- find_block_loop_None, Hloop. split; discriminate.
    + left. eauto.
  - split; [|split].
    + intros block. rewrite <- find_block_loop_Some, Hloop.
      split; discriminate.
    + rewrite <- find_block_loop_None, Hloop. split; reflexivity.
    + right. reflexivity.
Qed.

Lemma find_block_first_match_witness :
  active_blocks page_env = Some 1 /\
  find_block ["submit"; "title"; "input"] page_env
  = (page_env, inr title_block).
Proof.
  split; [reflexivity|].
  apply (proj1 (find_block_first_match
                  ["submit"; "title"; "input"] page_env 1 eq_refl)).
  exists ["submit"], "title", ["input"].
  split; [reflexivity|]. split; [|vm_compute; reflexivity].
  constructor; [vm_compute; reflexivity | constructor].
Defined.

(** Without an active registry the lookup in the render context fails
    first. *)
Lemma find_block_without_registry (names : list string) (env : Env) :
  active_blocks env = None ->
  find_block names env = (env, inl (KeyError "block_context")).
Proof. intros Hnone. unfold find_block. now rewrite Hnone. Qed.

(** ** The scope switcher *)

(** C3. With the empty alias the body runs on the environment as it is:
    nothing is pushed and no registry is exchanged, and the outcome is the
    body's own, so the widgets dictionary is never consulted and its absence
    cannot fail the call. *)
Theorem using_empty_alias {A} (body : M A) (env : Env) :
  using_ "" body env = body env.
Proof. reflexivity. Qed.

(** The empty alias on a render context without any widgets dictionary. *)
Example empty_alias_without_widgets :
  widgets_never_created unloaded_env /\
  using_ "" (find_block ["title"]) unloaded_env
  = (unloaded_env, inr title_block).
Proof.
  split; [|vm_compute; reflexivity].
  repeat constructor.
Qed.

(** C6. A non-empty alias fails with [No widget libraries loaded!] when no
    widgets dictionary was ever created, and with an error carrying the alias
    when the active widgets dictionary has no entry for it.  Either way the
    body is not run and the environment, its render context included, is
    returned as it was. *)
Theorem using_unloaded_alias {A} (alias : string) (body : M A) (env : Env) :
  alias <> "" ->
  (widgets_never_created env ->
     using_ alias body env
     = (env, inl (TemplateSyntaxError (Msg "No widget libraries loaded!")))) /\
  (forall widgets,
      active_widgets env = Some widgets ->
      widgets_at env widgets !! alias = None ->
      using_ alias body env
      = (env, inl (TemplateSyntaxError
                     (MsgRepr "No widget library loaded for alias: %r"
                              (ArgStr alias))))).
Proof.
  intros Hne. unfold using_.
  destruct (String.eqb_spec alias "") as [->|_]; [congruence|].
  split.
  - intros Hnever. unfold widgets_never_created in Hnever.
    apply Forall_cons in Hnever as [Htop _].
    unfold active_widgets. rewrite Htop. reflexivity.
  - intros widgets -> ->. reflexivity.
Qed.

Lemma using_unloaded_alias_witness :
  using_ "zzz" (find_block ["blk"]) bare_env
  = (bare_env, inl (TemplateSyntaxError (Msg "No widget libraries loaded!")))
  /\
  using_ "zzz" (find_block ["blk"]) page_env
  = (page_env, inl (TemplateSyntaxError
                      (MsgRepr "No widget library loaded for alias: %r"
                               (ArgStr "zzz")))).
Proof.
  assert (Hne : "zzz" <> "") by discriminate.
  split.
  - apply (proj1 (using_unloaded_alias "zzz" (find_block ["blk"]) bare_env
                    Hne)).
    repeat constructor.
  - apply (proj2 (using_unloaded_alias "zzz" (find_block ["blk"]) page_env
                    Hne) 0).
    + reflexivity.
    + vm_compute. reflexivity.
Defined.

(** The error for a missing dictionary depends on the top of the render
    context alone. *)
Lemma using_no_active_widgets {A} (alias : string) (body : M A) (env : Env) :
  alias <> "" ->
  active_widgets env = None ->
  using_ alias body env
  = (env, inl (TemplateSyntaxError (Msg "No widget libraries loaded!"))).
Proof.
  intros Hne Hnone. unfold using_.
  destruct (String.eqb_spec alias "") as [->|_]; [congruence|].
  rewrite Hnone. reflexivity.
Qed.

Lemma using_body_returns {A} (alias : string) (body : M A) (env env' : Env)
    (widgets block_set : loc) (r : A) :
  alias <> "" ->
  active_widgets env = Some widgets ->
  widgets_at env widgets !! alias = Some block_set ->
  body (activated widgets block_set env) = (env', inr r) ->
  using_ alias body env
  = match render_context_pop env' with
    | Some env'' => (env'', inr r)
    | None => (env', inl ContextPopException)
    end.
Proof.
  intros Hne Hw Hb Hbody. unfold using_.
  destruct (String.eqb_spec alias "") as [->|_]; [congruence|].
  rewrite Hw, Hb. unfold activated in Hbody. rewrite Hbody. reflexivity.
Qed.

(** When the body raises, the environment comes back as the body left it:
    the layer pushed on entry is still there. *)
Lemma using_body_raises {A} (alias : string) (body : M A) (env env' : Env)
    (widgets block_set : loc) (e : exn) :
  alias <> "" ->
  active_widgets env = Some widgets ->
  widgets_at env widgets !! alias = Some block_set ->
  body (activated widgets block_set env) = (env', inl e) ->
  using_ alias body env = (env', inl e).
Proof.
  intros Hne Hw Hb Hbody. unfold using_.
  destruct (String.eqb_spec alias "") as [->|_]; [congruence|].
  rewrite Hw, Hb. unfold activated in Hbody. rewrite Hbody. reflexivity.
Qed.

(** On the example page a widget of the library renders and the render
    context is as before: the layer was popped. *)
Example widget_on_page :
  Widget_render demo_resolve demo_block_render
    (mkWidget "form:input" [("size", "7")] None) page_env
  = (page_env, inr "input").
Proof. vm_compute. reflexivity. Qed.

(** C1. The code at the failing input.  On the example page the library is
    loaded under [form] and the page's own registry (address 1) is active.
    Rendering the widget [form:label], whose block fails to render, and
    looking up the widget [form:missing], which does not exist, both raise; in
    both cases the render context keeps the layer that [using] pushed, and the
    active registry is the library's (address 0) instead of the page's. *)
Theorem using_keeps_layer_when_body_raises :
  let leaked :=
    push (mkRenderLayer (Some 0) (Some 0)) (render_context page_env) in
  active_blocks page_env = Some 1 /\
  (let '(env', r) :=
     Widget_render demo_resolve demo_block_render
       (mkWidget "form:label" [] None) page_env in
   r = inl (HostError 1) /\
   render_context env' = leaked /\
   active_blocks env' = Some 0) /\
  (let '(env', r) :=
     Widget_render demo_resolve demo_block_render
       (mkWidget "form:missing" [] None) page_env in
   r = inl (TemplateSyntaxError
              (MsgRepr "No widget found for: %r" (ArgTuple ["missing"]))) /\
   render_context env' = leaked /\
   active_blocks env' = Some 0).
Proof. vm_compute. repeat split. Qed.

(** ** Automatic widget names *)

Lemma append_empty_r (s : string) : s +:+ "" = s.
Proof.
  induction s as [|c s IH]; [reflexivity|].
  change (String c (s +:+ "") = String c s). now rewrite IH.
Qed.

(** C7. The candidates derived from a bound field are the seven names
    [field_widget_name], [field_name], [widget_name], [field_widget], [name],
    [widget], [field], in this order. *)
Theorem auto_widget_seven_candidates (field : BoundField) :
  auto_widget field
  = Some [ field_class_name field +:+ "_" +:+ widget_class_name field
             +:+ "_" +:+ field_name field;
           field_class_name field +:+ "_" +:+ field_name field;
           widget_class_name field +:+ "_" +:+ field_name field;
           field_class_name field +:+ "_" +:+ widget_class_name field;
           field_name field;
           widget_class_name field;
           field_class_name field ].
Proof.
  destruct field as [n f w]. cbv -[append].
  rewrite !append_empty_r. reflexivity.
Qed.

Example auto_widget_char_field :
  auto_widget (mkBoundField "email" "CharField" "TextInput")
  = Some [ "CharField_TextInput_email"; "CharField_email"; "TextInput_email";
           "CharField_TextInput"; "email"; "TextInput"; "CharField" ].
Proof. reflexivity. Qed.

(** ** Variable scopes *)



(** ** reuse *)

(** C8. [reuse] probes the active registry with the candidates as they are
    written, in order.  The first candidate with a definition gets its block
    rendered on the environment with the overrides pushed on top, and popped
    afterwards.  When no candidate has a definition the result is the empty
    string, on the unchanged environment, and nothing is raised; so it is in
    particular when no registry is active. *)
Theorem reuse_first_match_or_empty (block_render : BlockNode -> M string)
    (block_list : string + list string) (kwargs : gmap string value)
    (env : Env) :
  let names :=
    match block_list with inl one => [one] | inr several => several end in
  let registry :=
    match active_blocks env with
    | Some l => block_context_at env l
    | None => ∅
    end in
  (forall before block_name after block,
      names = before ++ block_name :: after ->
      Forall (fun n => get_block registry n = None) before ->
      get_block registry block_name = Some block ->
      reuse block_render block_list kwargs env
      = context_exit (block_render block (context_push kwargs env))) /\
  (Forall (fun n => get_block registry n = None) names ->
     reuse block_render block_list kwargs env = (env, inr "")) /\
  (active_blocks env = None ->
     reuse block_render block_list kwargs env = (env, inr "")).
Proof.
  intros names registry. unfold reuse. fold names. fold registry.
  rewrite reuse_loop_find_block_loop.
  split; [|split].
  - intros before block_name after block Hnames Hbefore Hget.
    assert (Hloop : find_block_loop registry names = Some block)
      by (apply find_block_loop_Some; eauto 6).
    rewrite Hloop. reflexivity.
  - intros Hnone. apply find_block_loop_None in Hnone. now rewrite Hnone.
  - intros Hactive.
    assert (Hloop : find_block_loop registry names = None).
    { apply find_block_loop_None. apply Forall_forall. intros n _.
      subst registry. rewrite Hactive. reflexivity. }
    now rewrite Hloop.
Qed.

Lemma reuse_first_match_or_empty_witness :
  reuse demo_block_render (inr ["submit"; "title"]) {[ "size" := VObj 7 ]}
        unloaded_env
  = (unloaded_env, inr "title") /\
  reuse demo_block_render (inl "form:input") ∅ page_env
  = (page_env, inr "") /\
  reuse demo_block_render (inl "title") ∅ bare_env = (bare_env, inr "").
Proof.
  split; [|split].
  - rewrite (proj1 (reuse_first_match_or_empty demo_block_render
                      (inr ["submit"; "title"]) {[ "size" := VObj 7 ]}
                      unloaded_env)
               ["submit"] "title" [] title_block).
    + reflexivity.
    + reflexivity.
    + constructor; [vm_compute; reflexivity | constructor].
    + vm_compute. reflexivity.
  - apply (proj1 (proj2 (reuse_first_match_or_empty demo_block_render
                           (inl "form:input") ∅ page_env))).
    constructor; [vm_compute; reflexivity | constructor].
  - apply (proj2 (proj2 (reuse_first_match_or_empty demo_block_render
                           (inl "title") ∅ bare_env))).
    reflexivity.
Defined.

(** ** Dictionaries *)

Lemma dict_set_keys {V} k (v : V) d x :
  In x (map fst (dict_set k v d)) -> x = k \/ In x (map fst d).
Proof.
  induction d as [|[k' v'] d IH]; simpl.
  - intuition congruence.
  - destruct (String.eqb_spec k k') as [->|Hne]; simpl;
      intuition congruence.
Qed.

Lemma dict_set_NoDup {V} k (v : V) d :
  List.NoDup (map fst d) -> List.NoDup (map fst (dict_set k v d)).
Proof.
  induction d as [|[k' v'] d IH]; simpl; intros Hnd.
  - constructor; [tauto | constructor].
  - inversion Hnd as [|? ? Hnotin Hnd']; subst.
    destruct (String.eqb_spec k k') as [->|Hne]; simpl.
    + constructor; assumption.
    + constructor; [|auto].
      intros Hin. apply dict_set_keys in Hin. destruct Hin; congruence.
Qed.

Lemma dict_NoDup {V} (pairs : list (string * V)) :
  List.NoDup (map fst (dict pairs)).
Proof.
  unfold dict.
  assert (Hgen : forall acc : list (string * V),
             List.NoDup (map fst acc) ->
             List.NoDup
               (map fst (fold_left (fun d p => dict_set (fst p) (snd p) d)
                                   pairs acc))).
  { induction pairs as [|p pairs IH]; simpl; intros acc Hacc; [assumption|].
    apply IH, dict_set_NoDup, Hacc. }
  apply Hgen. constructor.
Qed.

Lemma dict_get_not_in {V} k (d : list (string * V)) :
  ~ In k (map fst d) -> dict_get k d = None.
Proof.
  induction d as [|[k' v] d IH]; simpl; intros Hnotin; [reflexivity|].
  destruct (String.eqb_spec k k') as [->|Hne]; tauto.
Qed.

Lemma dict_get_dict_set {V} (x k : string) (v : V) d :
  dict_get x (dict_set k v d)
  = if String.eqb x k then Some v else dict_get x d.
Proof.
  induction d as [|[k' v'] d IH]; simpl; [reflexivity|].
  destruct (String.eqb_spec k k') as [->|Hne]; simpl.
  - destruct (String.eqb_spec x k'); reflexivity.
  - rewrite IH.
    destruct (String.eqb_spec x k') as [->|]; [|reflexivity].
    destruct (String.eqb_spec k' k); [congruence|reflexivity].
Qed.

Lemma dict_get_fold_not_in {V} (k : string) (pairs acc : list (string * V)) :
  ~ In k (map fst pairs) ->
  dict_get k (fold_left (fun d p => dict_set (fst p) (snd p) d) pairs acc)
  = dict_get k acc.
Proof.
  revert acc. induction pairs as [|[k' v'] pairs IH]; simpl; intros acc Hnotin;
    [reflexivity|].
  rewrite IH by tauto. rewrite dict_get_dict_set.
  destruct (String.eqb_spec k k') as [->|]; [tauto|reflexivity].
Qed.

Lemma dict_get_dict {V} (k : string) (v : V) (pairs : list (string * V)) :
  List.NoDup (map fst pairs) ->
  In (k, v) pairs ->
  dict_get k (dict pairs) = Some v.
Proof.
  unfold dict. generalize (@nil (string * V)) as acc.
  induction pairs as [|[k' v'] pairs IH]; simpl; intros acc Hnd Hin; [tauto|].
  inversion Hnd as [|? ? Hnotin Hnd']; subst.
  destruct Hin as [[= -> ->]|Hin].
  - rewrite dict_get_fold_not_in by assumption.
    rewrite dict_get_dict_set. now rewrite String.eqb_refl.
  - now apply IH.
Qed.

(** A template whose blocks have distinct names, as the host's parser
    demands, declares each of its blocks under the block's name. *)
Lemma local_blocks_declares (t : Template) (block : BlockNode) :
  List.NoDup (map name (block_nodes t)) ->
  In block (block_nodes t) ->
  dict_get (name block) (local_blocks t) = Some block.
Proof.
  intros Hnd Hin. unfold local_blocks. apply dict_get_dict.
  - now rewrite map_map.
  - apply (in_map (fun b => (name b, b))) in Hin. exact Hin.
Qed.

(** ** Layers of a BlockContext *)

Lemma queue_insert_eq blocks k (q : list BlockNode) :
  queue (<[k := q]> blocks) k = q.
Proof. unfold queue. now rewrite lookup_insert_eq. Qed.

Lemma queue_insert_ne blocks k x (q : list BlockNode) :
  k <> x -> queue (<[k := q]> blocks) x = queue blocks x.
Proof. intros Hne. unfold queue. now rewrite lookup_insert_ne. Qed.

(** A layer puts its definition of a name, if it has one, in front of the
    queue; the other queues stay. *)
Lemma queue_add_blocks new blocks x :
  List.NoDup (map fst new) ->
  queue (add_blocks new blocks) x
  = match dict_get x new with
    | Some block => block :: queue blocks x
    | None => queue blocks x
    end.
Proof.
  unfold add_blocks. revert blocks.
  induction new as [|[k b] new IH]; simpl; intros blocks Hnd; [reflexivity|].
  inversion Hnd as [|? ? Hnotin Hnd']; subst.
  rewrite IH by assumption.
  destruct (String.eqb_spec x k) as [->|Hne].
  - rewrite (dict_get_not_in k new Hnotin). apply queue_insert_eq.
  - rewrite queue_insert_ne by congruence. reflexivity.
Qed.

Lemma queue_fold_layers docs blocks x :
  queue (fold_layers docs blocks) x
  = reverse (definitions x docs) ++ queue blocks x.
Proof.
  unfold fold_layers, definitions. revert blocks.
  induction docs as [|doc docs IH]; simpl; intros blocks; [reflexivity|].
  rewrite IH, queue_add_blocks by apply dict_NoDup.
  destruct (dict_get x (local_blocks doc)) as [b|]; [|reflexivity].
  rewrite reverse_cons, <- app_assoc. reflexivity.
Qed.

(** Looking a name up after the layers were added to a registry that had no
    definition of it: the first document of the list that defines the name
    provides the answer. *)
Lemma get_block_fold_layers docs blocks x :
  queue blocks x = [] ->
  get_block (fold_layers docs blocks) x = head (definitions x docs).
Proof.
  intros Hempty. unfold get_block.
  rewrite queue_fold_layers, Hempty, app_nil_r. apply last_reverse.
Qed.

Lemma list_alter_alter {A} (f g : A -> A) (i : nat) (l : list A) :
  alter f i (alter g i l) = alter (fun x => f (g x)) i l.
Proof.
  revert i. induction l as [|a l IH]; intros [|i]; simpl; try reflexivity.
  f_equal. apply IH.
Qed.

(** ** resolve_blocks *)

Section Resolution.

Variable get_template : string -> exn + Template.
Variable get_parent : ExtendsNode -> Env -> exn + Template.

(** Along a chain, resolution adds the layers of the documents to the
    active registry, in the order of the chain, and touches nothing else. *)
Lemma resolve_blocks_chain (t : Template) (docs : list Template) :
  extends_chain get_parent t docs ->
  forall (fuel : nat) (env : Env) (l : loc),
    active_blocks env = Some l ->
    length docs <= fuel ->
    resolve_blocks get_template get_parent fuel (VTemplate t) env
    = Some (set_block_contexts
              (alter (fold_layers docs) l (block_contexts env)) env,
            inr l).
Proof.
  induction 1 as [t Hroot | t e others parent rest Hext Hparent Hchain IH];
    intros fuel env l Hactive Hfuel.
  - destruct fuel as [|fuel]; [simpl in Hfuel; lia|].
    simpl. rewrite Hactive, Hroot. reflexivity.
  - destruct fuel as [|fuel]; [simpl in Hfuel; lia|].
    simpl in Hfuel.
    simpl resolve_blocks. rewrite Hactive, Hext, Hparent.
    rewrite (IH fuel _ l) by (auto; lia).
    simpl. rewrite list_alter_alter. reflexivity.
Qed.

(** Without an active registry a new, empty one is created and made
    active first. *)
Lemma resolve_blocks_creates_registry (fuel : nat) (template : value)
    (env : Env) :
  active_blocks env = None ->
  resolve_blocks get_template get_parent fuel template env
  = resolve_blocks get_template get_parent fuel template
      (store_blocks (length (block_contexts env))
                    (snd (new_block_context env))).
Proof.
  intros Hnone. destruct fuel as [|fuel]; [reflexivity|].
  simpl. rewrite Hnone. reflexivity.
Qed.

Lemma resolve_blocks_as_template (fuel : nat) (template : value)
    (t : Template) (env : Env) :
  as_template get_template template = inr t ->
  resolve_blocks get_template get_parent fuel template env
  = resolve_blocks get_template get_parent fuel (VTemplate t) env.
Proof.
  intros Hload. destruct fuel as [|fuel]; [reflexivity|].
  simpl. simpl in Hload. rewrite Hload. reflexivity.
Qed.

Lemma extends_chain_head (t : Template) (docs : list Template) :
  extends_chain get_parent t docs -> exists rest, docs = t :: rest.
Proof. destruct 1; eauto. Qed.

(** C2. Resolving a template at the head of an inheritance chain of any
    length, given by name or as a template, adds one layer per document to
    the active registry, the most specific document first, and leaves the
    rest of the environment alone.  For a name the registry did not define
    before, lookup answers with the definition of the first document of the
    chain that declares it; so a name declared by the resolved template
    itself yields that declaration, whatever its ancestors declare. *)
Theorem resolve_blocks_most_specific_first (template : value)
    (t : Template) (docs : list Template) (env : Env) (l : loc)
    (fuel : nat) :
  as_template get_template template = inr t ->
  extends_chain get_parent t docs ->
  active_blocks env = Some l ->
  is_Some (block_contexts env !! l) ->
  length docs <= fuel ->
  exists env',
    resolve_blocks get_template get_parent fuel template env
    = Some (env', inr l) /\
    context env' = context env /\
    render_context env' = render_context env /\
    widget_dicts env' = widget_dicts env /\
    (forall l', l' <> l ->
                block_contexts env' !! l' = block_contexts env !! l') /\
    block_context_at env' l = fold_layers docs (block_context_at env l) /\
    (forall block_name,
        queue (block_context_at env l) block_name = [] ->
        get_block (block_context_at env' l) block_name
        = head (definitions block_name docs)) /\
    (forall block_name block,
        queue (block_context_at env l) block_name = [] ->
        dict_get block_name (local_blocks t) = Some block ->
        get_block (block_context_at env' l) block_name = Some block).
Proof.
  intros Hload Hchain Hactive [blocks Hblocks] Hfuel.
  eexists. split.
  { rewrite (resolve_blocks_as_template _ _ t) by assumption.
    apply resolve_blocks_chain; eassumption. }
  assert (Hat : block_context_at
                  (set_block_contexts
                     (alter (fold_layers docs) l (block_contexts env)) env) l
                = fold_layers docs (block_context_at env l)).
  { unfold block_context_at. simpl.
    rewrite list_lookup_alter_eq, Hblocks. reflexivity. }
  repeat split; try reflexivity.
  - intros l' Hne. simpl. apply list_lookup_alter_ne. congruence.
  - exact Hat.
  - intros x Hx. rewrite Hat. apply get_block_fold_layers, Hx.
  - intros x block Hx Hdecl. rewrite Hat, get_block_fold_layers by exact Hx.
    destruct (extends_chain_head _ _ Hchain) as [rest ->].
    unfold definitions. simpl. rewrite Hdecl. reflexivity.
Qed.

End Resolution.

Lemma leaf_chain :
  extends_chain demo_get_parent leaf_doc [leaf_doc; middle_doc; base_doc].
Proof.
  eapply chain_extends; [reflexivity | intros; reflexivity |].
  eapply chain_extends; [reflexivity | intros; reflexivity |].
  apply chain_root. reflexivity.
Defined.

Lemma resolve_blocks_most_specific_first_witness :
  exists env',
    resolve_blocks demo_get_template demo_get_parent 3 (VStr "leaf.html")
                   resolving_env
    = Some (env', inr 2) /\
    get_block (block_context_at env' 2) "x" = Some leaf_x /\
    get_block (block_context_at env' 2) "y" = Some middle_y.
Proof.
  destruct (resolve_blocks_most_specific_first
              demo_get_template demo_get_parent (VStr "leaf.html") leaf_doc
              [leaf_doc; middle_doc; base_doc] resolving_env 2 3
              eq_refl leaf_chain eq_refl (ex_intro _ ∅ eq_refl)
              (le_n 3))
    as (env' & Hres & _ & _ & _ & _ & _ & Hfirst & Hown).
  exists env'. split; [exact Hres|]. split.
  - apply Hown; reflexivity.
  - rewrite Hfirst; reflexivity.
Defined.

(** ** Nested widgets *)



Section NestedRendering.

Variable resolve : string -> M value.
Variable block_render : BlockNode -> M string.
Variable nodelist_render : nat -> M string.



End NestedRendering.


(** The whole tag on the example page: the body sees the override [size], and
    the block sees the body as [content]. *)
Example nested_widget_on_page :
  NestedWidget_render demo_resolve demo_block_render demo_nodelist_render
    (mkNestedWidget "form:input" 0 [("size", "7")] None) page_env
  = (page_env, inr "input(body 7)").
Proof. vm_compute. reflexivity. Qed.

(** ** load_widgets *)

Section Loading.

Variable get_template : string -> exn + Template.
Variable get_parent : ExtendsNode -> Env -> exn + Template.
Variable fuel : nat.

(** The loop runs through the pairs that the soft test skips and stops at
    the first other pair, where the render context is asked for [update];
    the environment is not changed on the way. *)
Lemma load_widgets_loop_outcome (_soft : value) (widgets : loc)
    (items : list (string * value)) (env : Env) (table : gmap string loc) :
  widgets_at env widgets = table ->
  load_widgets_loop get_template get_parent fuel _soft widgets items env
  = Some (env,
          if forallb (fun p => soft_skip _soft table (fst p)) items
          then inr ""
          else inl (AttributeError "update")).
Proof.
  intros <-.
  induction items as [|[alias doc] rest IH]; [reflexivity|].
  cbn [load_widgets_loop forallb fst].
  destruct (soft_skip _soft (widgets_at env widgets) alias);
    [exact IH | reflexivity].
Qed.

(** Whatever it is given, [load_widgets] stores no registry: the widgets
    dictionary holds afterwards what it held before, no [BlockContext] was
    created, and the tag raised [AttributeError] unless the soft test skipped
    every pair. *)
Lemma load_widgets_stores_nothing (kwargs : list (string * value))
    (env env' : Env) (r : exn + string) :
  load_widgets get_template get_parent fuel kwargs env = Some (env', r) ->
  widgets_before env' = widgets_before env /\
  block_contexts env' = block_contexts env /\
  r = (if forallb (fun p => soft_skip (fst (dict_pop "_soft" (VBool false)
                                                     kwargs))
                                      (widgets_before env) (fst p))
                  (snd (dict_pop "_soft" (VBool false) kwargs))
       then inr ""
       else inl (AttributeError "update")).
Proof.
  unfold load_widgets, widgets_before.
  destruct (dict_pop "_soft" (VBool false) kwargs) as [_soft items].
  cbn [fst snd].
  destruct (active_widgets env) as [w|] eqn:Hactive.
  - rewrite (load_widgets_loop_outcome _ _ _ _ _ eq_refl).
    intros [= <- <-]. rewrite Hactive. auto.
  - unfold new_widgets. cbv beta iota.
    set (w := length (widget_dicts env)).
    assert (Hat : widgets_at (store_widgets w
                                (set_widget_dicts (widget_dicts env ++ [∅])
                                                  env)) w = ∅).
    { unfold widgets_at. simpl. subst w. now rewrite list_lookup_middle. }
    rewrite (load_widgets_loop_outcome _ _ _ _ _ Hat).
    intros [= <- <-]. split; [exact Hat | split; reflexivity].
Qed.

End Loading.

(** C4. The code at the failing inputs.  A soft load of an alias that is
    not bound, the first of the two loads of the example, raises
    [AttributeError] where it asks the render context for [update]: the
    widgets dictionary has been created, and the alias is not bound in it.  A
    plain load over a bound alias raises in the same way and leaves the
    binding as it was.  Only a soft load of a bound alias, which is skipped,
    returns. *)
Theorem load_widgets_raises_at_update :
  load_widgets demo_get_template demo_get_parent 3
    [("_soft", VBool true); ("a", VStr "leaf.html")] bare_env
  = Some (store_widgets 0 (snd (new_widgets bare_env)),
          inl (AttributeError "update")) /\
  widgets_before (store_widgets 0 (snd (new_widgets bare_env))) !! "a" = None
  /\
  load_widgets demo_get_template demo_get_parent 3
    [("form", VStr "leaf.html")] page_env
  = Some (page_env, inl (AttributeError "update")) /\
  widgets_before page_env !! "form" = Some 0 /\
  load_widgets demo_get_template demo_get_parent 3
    [("_soft", VBool true); ("form", VStr "leaf.html")] page_env
  = Some (page_env, inr "").
Proof. vm_compute. repeat split. Qed.

(** * Further properties *)

(** ** Widget names *)

(** X1. Writing an alias without colon, a colon and a block name, and parsing
    the result, gives the alias and the block name back. *)
Theorem parse_widget_name_of_joined (alias block_name : string) :
  ~ occurs ":" alias ->
  parse_widget_name (alias +:+ String ":" block_name)
  = inr (alias, block_name).
Proof.
  intros Hno. unfold parse_widget_name.
  destruct (split_1_cases ":" (alias +:+ String ":" block_name))
    as [[Hnone _]|(before & after & Heq & Hbefore & ->)].
  - exfalso. apply Hnone, occurs_append. simpl. tauto.
  - simpl.
    assert (Hsame : before = alias /\ after = block_name).
    { clear -Heq Hno Hbefore. revert before Heq Hbefore.
      induction alias as [|c alias IH]; intros [|c' before] Heq Hbefore.
      - injection Heq as <-. auto.
      - injection Heq as <- _. exfalso. apply Hbefore. simpl. tauto.
      - injection Heq as -> _. exfalso. apply Hno. simpl. tauto.
      - injection Heq as <- Heq.
        destruct (IH (fun H => Hno (or_intror H)) before Heq
                     (fun H => Hbefore (or_intror H))) as [-> ->].
        auto. }
    destruct Hsame as [-> ->]. reflexivity.
Qed.

Lemma parse_widget_name_of_joined_witness :
  parse_widget_name ("form" +:+ String ":" "input:wide")
  = inr ("form", "input:wide").
Proof.
  apply (parse_widget_name_of_joined "form" "input:wide").
  simpl. intros H.
  repeat (destruct H as [H|H]; [discriminate H|]). exact H.
Defined.

(** ** pop_asvar *)

Lemma pop_asvar_as_clause (bits : list string) (asvar : string) :
  pop_asvar (bits ++ ["as"; asvar]) = (Some asvar, bits).
Proof.
  unfold pop_asvar. rewrite length_app. simpl length.
  rewrite bool_decide_eq_true_2 by lia.
  replace (length bits + 2 - 2) with (length bits) by lia.
  replace (length bits + 2 - 1) with (S (length bits)) by lia.
  rewrite list_lookup_middle by reflexivity.
  rewrite (lookup_app_r bits) by lia.
  replace (S (length bits) - length bits) with 1 by lia. simpl.
  rewrite take_app_length. reflexivity.
Qed.

Lemma pop_asvar_inv (bits rest : list string) (answer : option string) :
  pop_asvar bits = (answer, rest) ->
  match answer with
  | Some asvar => bits = rest ++ ["as"; asvar]
  | None => rest = bits
  end.
Proof.
  unfold pop_asvar. case_bool_decide as Hlen; [|now intros [= <- <-]].
  destruct (bits !! (length bits - 2)) as [keyword|] eqn:Hkeyword;
    [|now intros [= <- <-]].
  destruct (bits !! (length bits - 1)) as [asvar|] eqn:Hasvar;
    [|now intros [= <- <-]].
  destruct (String.eqb_spec keyword "as") as [->|_]; [|now intros [= <- <-]].
  intros [= <- <-].
  rewrite <- (take_drop (length bits - 2) bits) at 1. f_equal.
  rewrite (drop_S _ _ _ Hkeyword). f_equal.
  replace (S (length bits - 2)) with (length bits - 1) by lia.
  rewrite (drop_S _ _ _ Hasvar). f_equal.
  apply drop_ge. lia.
Qed.

(** X2. [pop_asvar] answers with a variable name exactly when the tokens end in
    [as] and that name, and then removes these two tokens and no other; when
    it answers [None] the tokens are left as they were. *)
Theorem pop_asvar_takes_trailing_as_clause (bits : list string) :
  (forall asvar rest,
      pop_asvar bits = (Some asvar, rest) <-> bits = rest ++ ["as"; asvar]) /\
  (forall rest, pop_asvar bits = (None, rest) -> rest = bits) /\
  length (snd (pop_asvar bits)) <= length bits.
Proof.
  split; [|split].
  - intros asvar rest. split.
    + apply (pop_asvar_inv bits rest (Some asvar)).
    + intros ->. apply pop_asvar_as_clause.
  - intros rest. apply (pop_asvar_inv bits rest None).
  - destruct (pop_asvar bits) as [[asvar|] rest] eqn:Hpop;
      apply pop_asvar_inv in Hpop; simpl.
    + rewrite Hpop, length_app. lia.
    + now rewrite Hpop.
Qed.

Example pop_asvar_examples :
  pop_asvar ["size=7"; "as"; "out"] = (Some "out", ["size=7"]) /\
  pop_asvar ["as"; "out"; "size=7"] = (None, ["as"; "out"; "size=7"]) /\
  pop_asvar ["as"] = (None, ["as"]) /\
  pop_asvar [] = (None, []).
Proof. repeat split. Qed.

(** ** Compilation of the tags *)

Section Compilation.

Variable compile_filter : string -> exn + string.
Variable token_kwargs :
  list string -> exn + (list (string * string) * list string).
Variable parse_endnested : exn + nat.

(** X3. A [{% widget %}] tag that compiles has a tag name and an expression for
    the widget name, which is compiled by the host; its node has a variable
    name exactly when the tokens after the expression end in [as] and that
    name; and [token_kwargs] has taken every other token as a keyword
    argument, leaving none. *)
Theorem widget_tag_compiled (bits : list string) (node : Widget) :
  widget_tag compile_filter token_kwargs bits = inr node ->
  exists tag_name first rest,
    bits = tag_name :: first :: rest /\
    compile_filter first = inr (widget node) /\
    (forall var,
        asvar node = Some var <-> exists rest', rest = rest' ++ ["as"; var]) /\
    token_kwargs (snd (pop_asvar rest)) = inr (kwargs node, []).
Proof.
  unfold widget_tag.
  destruct bits as [|tag_name [|first rest]]; try discriminate.
  destruct (compile_filter first) as [e|compiled] eqn:Hfirst;
    [discriminate|].
  destruct (pop_asvar rest) as [answer rest'] eqn:Hpop.
  destruct (token_kwargs rest') as [e|[keywords [|extra remaining]]] eqn:Hkw;
    try discriminate.
  intros [= <-]. exists tag_name, first, rest. simpl.
  split; [reflexivity|]. split; [exact Hfirst|].
  split; [|rewrite Hpop; exact Hkw].
  intros var. split.
  - intros ->. exists rest'. now apply (pop_asvar_inv rest rest' (Some var)).
  - intros [rest'' ->]. rewrite pop_asvar_as_clause in Hpop. congruence.
Qed.

(** X4. [{% nested_widget %}] takes its arguments as [{% widget %}] does: it
    fails with the same error wherever [{% widget %}] fails, and where that
    compiles it goes on to parse its body and builds a node with the same
    expression, keyword arguments and variable name. *)
Theorem nested_widget_tag_as_widget_tag (bits : list string) :
  nested_widget_tag compile_filter token_kwargs parse_endnested bits
  = match widget_tag compile_filter token_kwargs bits with
    | inl e => inl e
    | inr node =>
        match parse_endnested with
        | inl e => inl (Raised e)
        | inr nodelist =>
            inr (mkNestedWidget (widget node) nodelist (kwargs node)
                                (asvar node))
        end
    end.
Proof.
  unfold nested_widget_tag, widget_tag.
  destruct bits as [|tag_name [|first rest]]; try reflexivity.
  destruct (compile_filter first) as [e|compiled]; [reflexivity|].
  destruct (pop_asvar rest) as [answer rest'].
  destruct (token_kwargs rest') as [e|[keywords [|extra remaining]]];
    reflexivity.
Qed.

End Compilation.

Lemma widget_tag_compiled_witness :
  widget_tag demo_compile_filter demo_token_kwargs
    ["widget"; "form:input"; "size=7"; "as"; "out"]
  = inr (mkWidget "form:input" [("size", "7")] (Some "out")) /\
  exists tag_name first rest,
    ["widget"; "form:input"; "size=7"; "as"; "out"]
    = tag_name :: first :: rest /\
    demo_compile_filter first = inr "form:input" /\
    (forall var,
        Some "out" = Some var <-> exists rest', rest = rest' ++ ["as"; var]) /\
    demo_token_kwargs (snd (pop_asvar rest)) = inr ([("size", "7")], []).
Proof.
  assert (Hrun : widget_tag demo_compile_filter demo_token_kwargs
                   ["widget"; "form:input"; "size=7"; "as"; "out"]
                 = inr (mkWidget "form:input" [("size", "7")] (Some "out")))
    by reflexivity.
  split; [exact Hrun|].
  exact (widget_tag_compiled demo_compile_filter demo_token_kwargs _ _ Hrun).
Defined.

(** Without an argument, and with a second positional argument, the tags are
    refused. *)
Example widget_tag_refused :
  widget_tag demo_compile_filter demo_token_kwargs ["widget"]
  = inl (Raised (TemplateSyntaxError
                   (Msg "widget requires one positional argument"))) /\
  widget_tag demo_compile_filter demo_token_kwargs
    ["widget"; "form:input"; "other"; "size=7"]
  = inl (Raised (TemplateSyntaxError
                   (Msg "widget accepts only one positional argument"))) /\
  nested_widget_tag demo_compile_filter demo_token_kwargs (inr 0)
    ["nested_widget"; "form:input"; "as"]
  = inl (Raised (TemplateSyntaxError
                   (Msg "nested_widget accepts only one positional argument"))).
Proof. repeat split. Qed.

(** ** Scopes that return *)

Lemma set_render_context_same (env : Env) :
  set_render_context
    (mkStack (top (render_context env)) (below (render_context env))) env
  = env.
Proof. destruct env as [c [rt rb] h wd]. reflexivity. Qed.

(** X5. When the body of [using] returns and has left the render context as it
    found it, the layer is popped: the render context is the one from before
    the call, and everything else is as the body left it.  Inside, the
    alias's registry is the active one and the widgets dictionary is still
    at hand. *)
Theorem using_pops_layer_on_return {A} (alias : string) (body : M A)
    (env env' : Env) (widgets block_set : loc) (r : A) :
  alias <> "" ->
  active_widgets env = Some widgets ->
  widgets_at env widgets !! alias = Some block_set ->
  body (activated widgets block_set env) = (env', inr r) ->
  render_context env'
  = render_context (activated widgets block_set env) ->
  active_blocks (activated widgets block_set env) = Some block_set /\
  active_widgets (activated widgets block_set env) = Some widgets /\
  using_ alias body env
  = (set_render_context (render_context env) env', inr r).
Proof.
  intros Hne Hw Hb Hbody Hbalanced.
  split; [reflexivity|]. split; [reflexivity|].
  rewrite (using_body_returns alias body env env' widgets block_set r)
    by assumption.
  unfold render_context_pop. rewrite Hbalanced. simpl.
  now destruct (render_context env).
Qed.

Lemma using_pops_layer_on_return_witness :
  using_ "form" (find_block ["input"]) page_env
  = (set_render_context (render_context page_env) (activated 0 0 page_env),
     inr input_block).
Proof.
  apply (using_pops_layer_on_return "form" (find_block ["input"]) page_env
           (activated 0 0 page_env) 0 0 input_block).
  - discriminate.
  - reflexivity.
  - vm_compute. reflexivity.
  - vm_compute. reflexivity.
  - reflexivity.
Defined.

Lemma find_block_in_scope (names : list string) (env : Env)
    (widgets block_set : loc) (block : BlockNode) :
  find_block_loop (block_context_at env block_set) names = Some block ->
  find_block names (activated widgets block_set env)
  = (activated widgets block_set env, inr block).
Proof.
  intros Hloop. unfold find_block.
  change (active_blocks (activated widgets block_set env))
    with (Some block_set).
  cbv beta iota.
  change (block_context_at (activated widgets block_set env) block_set)
    with (block_context_at env block_set).
  now rewrite Hloop.
Qed.

Lemma activated_popped (env : Env) (widgets block_set : loc) :
  render_context_pop (activated widgets block_set env) = Some env.
Proof. destruct env as [c [rt rb] h wd]. reflexivity. Qed.

Lemma using_find_block_loop (alias : string) (names : list string)
    (env : Env) (widgets block_set : loc) (block : BlockNode) :
  alias <> "" ->
  active_widgets env = Some widgets ->
  widgets_at env widgets !! alias = Some block_set ->
  find_block_loop (block_context_at env block_set) names = Some block ->
  using_ alias (find_block names) env = (env, inr block).
Proof.
  intros Hne Hw Hb Hloop.
  rewrite (using_body_returns alias _ env (activated widgets block_set env)
             widgets block_set block Hne Hw Hb)
    by (now apply find_block_in_scope).
  now rewrite activated_popped.
Qed.

(** X6. A widget named with an alias is looked up in the registry loaded under
    that alias and in no other: the first candidate defined there is the
    answer, whatever the registry active at the call defines, and the
    environment is afterwards exactly as before. *)
Theorem using_finds_block_of_alias (alias : string) (names : list string)
    (env : Env) (widgets block_set : loc)
    (before after : list string) (block_name : string) (block : BlockNode) :
  alias <> "" ->
  active_widgets env = Some widgets ->
  widgets_at env widgets !! alias = Some block_set ->
  names = before ++ block_name :: after ->
  Forall (fun n => get_block (block_context_at env block_set) n = None)
         before ->
  get_block (block_context_at env block_set) block_name = Some block ->
  using_ alias (find_block names) env = (env, inr block).
Proof.
  intros Hne Hw Hb Hnames Hbefore Hget.
  apply (using_find_block_loop alias names env widgets block_set block);
    try assumption.
  apply find_block_loop_Some. eauto 6.
Qed.

Lemma using_finds_block_of_alias_witness :
  using_ "form" (find_block ["title"; "label"; "input"]) page_env
  = (page_env, inr label_block).
Proof.
  apply (using_finds_block_of_alias "form" ["title"; "label"; "input"]
           page_env 0 0 ["title"] ["input"] "label" label_block).
  - discriminate.
  - reflexivity.
  - vm_compute. reflexivity.
  - reflexivity.
  - constructor; [vm_compute; reflexivity | constructor].
  - vm_compute. reflexivity.
Defined.

(** X7. Scopes nest.  Inside the scope of one alias a widget of another alias is
    found in that other library; when its scope is left, lookups go to the
    registry of the first alias again; and at the end the environment is the
    one from before. *)
Theorem using_nested_scope_reverts (outer inner : string)
    (inner_name outer_name : string) (env : Env)
    (widgets outer_set inner_set : loc) (inner_block outer_block : BlockNode) :
  outer <> "" ->
  inner <> "" ->
  active_widgets env = Some widgets ->
  widgets_at env widgets !! outer = Some outer_set ->
  widgets_at env widgets !! inner = Some inner_set ->
  get_block (block_context_at env inner_set) inner_name = Some inner_block ->
  get_block (block_context_at env outer_set) outer_name = Some outer_block ->
  using_ outer
    (let* first := using_ inner (find_block [inner_name]) in
     let* second := find_block [outer_name] in
     ret (first, second)) env
  = (env, inr (inner_block, outer_block)).
Proof.
  intros Houter Hinner Hw Hos His Hib Hob.
  set (scope := activated widgets outer_set env).
  assert (Hfirst : using_ inner (find_block [inner_name]) scope
                   = (scope, inr inner_block)).
  { apply (using_find_block_loop inner [inner_name] scope widgets
             inner_set inner_block); auto.
    change (block_context_at scope inner_set)
      with (block_context_at env inner_set).
    simpl. now rewrite Hib. }
  assert (Hsecond : find_block [outer_name] scope = (scope, inr outer_block)).
  { apply find_block_in_scope. simpl. now rewrite Hob. }
  rewrite (using_body_returns outer _ env scope widgets outer_set
             (inner_block, outer_block) Houter Hw Hos).
  - subst scope. now rewrite activated_popped.
  - fold scope. unfold bind. rewrite Hfirst, Hsecond. reflexivity.
Qed.

Lemma using_nested_scope_reverts_witness :
  using_ "form"
    (let* first := using_ "nav" (find_block ["input"]) in
     let* second := find_block ["input"] in
     ret (first, second)) two_libraries_env
  = (two_libraries_env, inr (nav_input, input_block)).
Proof.
  apply (using_nested_scope_reverts "form" "nav" "input" "input"
           two_libraries_env 0 0 2 nav_input input_block).
  - discriminate.
  - discriminate.
  - reflexivity.
  - vm_compute. reflexivity.
  - vm_compute. reflexivity.
  - vm_compute. reflexivity.
  - vm_compute. reflexivity.
Defined.

(** ** Candidates of a form field *)

Lemma auto_widget_names (field : BoundField) :
  auto_widget field
  = Some [ field_class_name field +:+ "_" +:+ widget_class_name field
             +:+ "_" +:+ field_name field;
           field_class_name field +:+ "_" +:+ field_name field;
           widget_class_name field +:+ "_" +:+ field_name field;
           field_class_name field +:+ "_" +:+ widget_class_name field;
           field_name field;
           widget_class_name field;
           field_class_name field ].
Proof.
  destruct field as [n f w]. cbv -[append].
  rewrite !append_empty_r. reflexivity.
Qed.

(** X14. Searching the active registry with the candidates of a field: when none
    of the four compound names is defined there, a block named after the field
    is chosen, whether or not blocks named after the widget class or the
    field class exist. *)
Theorem auto_widget_prefers_field_name (field : BoundField) (env : Env)
    (l : loc) (block : BlockNode) :
  active_blocks env = Some l ->
  get_block (block_context_at env l)
    (field_class_name field +:+ "_" +:+ widget_class_name field
       +:+ "_" +:+ field_name field) = None ->
  get_block (block_context_at env l)
    (field_class_name field +:+ "_" +:+ field_name field) = None ->
  get_block (block_context_at env l)
    (widget_class_name field +:+ "_" +:+ field_name field) = None ->
  get_block (block_context_at env l)
    (field_class_name field +:+ "_" +:+ widget_class_name field) = None ->
  get_block (block_context_at env l) (field_name field) = Some block ->
  exists names,
    auto_widget field = Some names /\
    find_block names env = (env, inr block).
Proof.
  intros Hactive H1 H2 H3 H4 Hname.
  eexists. split; [apply auto_widget_names|].
  unfold find_block. rewrite Hactive.
  cbn [find_block_loop]. now rewrite H1, H2, H3, H4, Hname.
Qed.

(** ** reuse and find_block *)

(** X15. On an environment with an active registry, [reuse] renders the block
    that [find_block] returns for the same candidates, and returns the empty
    string where [find_block] raises. *)
Theorem reuse_renders_what_find_block_finds
    (block_render : BlockNode -> M string) (names : list string)
    (kwargs : gmap string value) (env : Env) (l : loc) :
  active_blocks env = Some l ->
  (forall block,
      find_block names env = (env, inr block) ->
      reuse block_render (inr names) kwargs env
      = context_exit (block_render block (context_push kwargs env))) /\
  (forall e,
      find_block names env = (env, inl e) ->
      reuse block_render (inr names) kwargs env = (env, inr "")).
Proof.
  intros Hactive. unfold find_block, reuse, raise, ret. rewrite Hactive.
  change (reuse_loop (block_context_at env l) names)
    with (find_block_loop (block_context_at env l) names).
  destruct (find_block_loop (block_context_at env l) names) as [found|].
  - split; [|discriminate]. intros block [= <-]. reflexivity.
  - split; [discriminate|]. reflexivity.
Qed.

Lemma auto_widget_prefers_field_name_witness :
  exists names,
    auto_widget (mkBoundField "email" "CharField" "TextInput") = Some names /\
    find_block names fields_env = (fields_env, inr email_block).
Proof.
  apply (auto_widget_prefers_field_name
           (mkBoundField "email" "CharField" "TextInput") fields_env 0
           email_block);
    vm_compute; reflexivity.
Defined.

Lemma reuse_renders_what_find_block_finds_witness :
  reuse demo_block_render (inr ["submit"; "title"]) demo_overrides
        unloaded_env
  = context_exit
      (demo_block_render title_block
         (context_push demo_overrides unloaded_env)) /\
  reuse demo_block_render (inr ["submit"]) demo_overrides unloaded_env
  = (unloaded_env, inr "").
Proof.
  split.
  - apply (proj1 (reuse_renders_what_find_block_finds demo_block_render
                    ["submit"; "title"] demo_overrides unloaded_env 0
                    eq_refl)).
    vm_compute. reflexivity.
  - apply (proj2 (reuse_renders_what_find_block_finds demo_block_render
                    ["submit"] demo_overrides unloaded_env 0 eq_refl)
             (TemplateSyntaxError
                (MsgRepr "No widget found for: %r" (ArgTuple ["submit"])))).
    vm_compute. reflexivity.
Defined.

(** ** Rendering the tags *)

Lemma parse_widget_name_no_colon (ref : string) :
  ~ occurs ":" ref ->
  parse_widget_name ref
  = inl (TemplateSyntaxError (Msg (widget_name_error +:+ ref))).
Proof.
  intros Hno. unfold parse_widget_name.
  destruct (split_1_cases ":" ref)
    as [[_ ->]|(before & after & -> & _ & _)]; [reflexivity|].
  exfalso. apply Hno, occurs_append. simpl. tauto.
Qed.

Section Rendering.

Variable resolve : string -> M value.
Variable block_render : BlockNode -> M string.
Variable nodelist_render : nat -> M string.

(** X16. A widget name without a colon stops both tags with the syntax error as
    soon as the name has been evaluated: the environment is the one the
    evaluation left, no scope was entered and nothing was rendered. *)
Theorem widget_name_without_colon_refused (self : Widget)
    (nested : NestedWidget) (env env1 : Env) (ref : string) :
  ~ occurs ":" ref ->
  (resolve (widget self) env = (env1, inr (VStr ref)) ->
   Widget_render resolve block_render self env
   = (env1, inl (TemplateSyntaxError (Msg (widget_name_error +:+ ref))))) /\
  (resolve (nested_widget nested) env = (env1, inr (VStr ref)) ->
   NestedWidget_render resolve block_render nodelist_render nested env
   = (env1, inl (TemplateSyntaxError (Msg (widget_name_error +:+ ref))))).
Proof.
  intros Hno. split; intros Hresolve.
  - unfold Widget_render, bind. rewrite Hresolve. unfold lift. simpl.
    now rewrite parse_widget_name_no_colon.
  - unfold NestedWidget_render, bind. rewrite Hresolve. unfold lift. simpl.
    now rewrite parse_widget_name_no_colon.
Qed.

(** X17. [{% widget ... as var %}] on a loaded alias, when the block renders and
    leaves both stacks as it found them: the tag emits nothing, the render
    context is the one from before the tag, the overrides are gone from the
    variable stack, and [var] is bound to the rendered text in the dictionary
    that is on top after the tag. *)
Theorem widget_as_variable (self : Widget) (env env1 env2 env3 : Env)
    (ref alias block_name var result : string) (widgets block_set : loc)
    (block : BlockNode) (overrides : gmap string value) :
  resolve (widget self) env = (env1, inr (VStr ref)) ->
  parse_widget_name ref = inr (alias, block_name) ->
  alias <> "" ->
  active_widgets env1 = Some widgets ->
  widgets_at env1 widgets !! alias = Some block_set ->
  get_block (block_context_at env1 block_set) block_name = Some block ->
  resolve_kwargs resolve (kwargs self) ∅ (activated widgets block_set env1)
  = (env2, inr overrides) ->
  block_render block (context_push overrides env2) = (env3, inr result) ->
  context env3 = context (context_push overrides env2) ->
  render_context env3 = render_context (activated widgets block_set env1) ->
  asvar self = Some var ->
  var <> "" ->
  exists env',
    Widget_render resolve block_render self env = (env', inr "") /\
    render_context env' = render_context env1 /\
    top (context env') = <[var := VStr result]> (top (context env2)) /\
    below (context env') = below (context env2) /\
    context_get var env' = Some (VStr result).
Proof.
  intros Hresolve Hparse Hne Hw Hb Hget Hkwargs Hrender Hvars Hlayers Hasvar
         Hvar.
  set (scope := activated widgets block_set env1) in *.
  assert (Hfind : find_block [block_name] scope = (scope, inr block)).
  { apply find_block_in_scope. simpl. now rewrite Hget. }
  set (env4 := set_context
                 (mkStack (top (context env2)) (below (context env2))) env3).
  assert (Hexit : context_update overrides (block_render block) env2
                  = (env4, inr result)).
  { unfold context_update. rewrite Hrender. unfold context_exit, context_pop.
    rewrite Hvars. reflexivity. }
  assert (Hemit : emit (asvar self) result env4
                  = (context_set var (VStr result) env4, inr "")).
  { unfold emit, asvar_set. rewrite Hasvar.
    destruct (String.eqb_spec var "") as [->|_]; [congruence|reflexivity]. }
  set (env5 := context_set var (VStr result) env4) in *.
  assert (Hbody :
            (let* block := find_block [block_name] in
             let* kwargs := resolve_kwargs resolve (kwargs self) ∅ in
             let* result := context_update kwargs (block_render block) in
             emit (asvar self) result) scope
            = (env5, inr "")).
  { unfold bind. rewrite Hfind, Hkwargs, Hexit. exact Hemit. }
  exists (set_render_context (render_context env1) env5).
  split.
  { unfold Widget_render, bind at 1 2. rewrite Hresolve.
    unfold lift. simpl parse_widget_value. rewrite Hparse.
    rewrite (using_body_returns alias _ env1 env5 widgets block_set ""
               Hne Hw Hb Hbody).
    unfold render_context_pop.
    change (render_context env5) with (render_context env3).
    rewrite Hlayers. subst scope. simpl.
    now destruct (render_context env1). }
  split; [reflexivity|]. split; [reflexivity|]. split; [reflexivity|].
  unfold context_get. simpl. now rewrite lookup_insert_eq.
Qed.

End Rendering.

Lemma widget_name_without_colon_refused_witness :
  Widget_render demo_resolve demo_block_render (mkWidget "input" [] None)
                page_env
  = (page_env,
     inl (TemplateSyntaxError (Msg (widget_name_error +:+ "input")))) /\
  NestedWidget_render demo_resolve demo_block_render demo_nodelist_render
    (mkNestedWidget "input" 0 [] None) page_env
  = (page_env,
     inl (TemplateSyntaxError (Msg (widget_name_error +:+ "input")))).
Proof.
  assert (Hno : ~ occurs ":" "input").
  { simpl. intros H.
    repeat (destruct H as [H|H]; [discriminate H|]). exact H. }
  destruct (widget_name_without_colon_refused
              demo_resolve demo_block_render demo_nodelist_render
              (mkWidget "input" [] None) (mkNestedWidget "input" 0 [] None)
              page_env page_env "input" Hno) as [Hplain Hnested].
  split; [apply Hplain | apply Hnested]; reflexivity.
Defined.

Lemma widget_as_variable_witness :
  exists env',
    Widget_render demo_resolve demo_block_render
      (mkWidget "form:input" [("size", "7")] (Some "out")) page_env
    = (env', inr "") /\
    render_context env' = render_context page_env /\
    context_get "out" env' = Some (VStr "input").
Proof.
  destruct (widget_as_variable demo_resolve demo_block_render
              (mkWidget "form:input" [("size", "7")] (Some "out"))
              page_env page_env (activated 0 0 page_env)
              (context_push demo_overrides (activated 0 0 page_env))
              "form:input" "form" "input" "out" "input" 0 0 input_block
              demo_overrides)
    as (env' & Hrun & Hlayers & _ & _ & Hvar);
    try (vm_compute; reflexivity); try discriminate.
  exists env'. auto.
Defined.

(** ** What loading leaves alone *)

Section Frame.

Variable get_template : string -> exn + Template.
Variable get_parent : ExtendsNode -> Env -> exn + Template.

(** X11. [load_widgets] keeps the scopes in balance in every outcome:
    whether it returns or raises, for any templates and any host, the variable stack is
    untouched, the render context has the layers it had with the same active
    registry, and a widgets dictionary is active, the one that was active
    before if there was one. *)
Theorem load_widgets_keeps_scopes (fuel : nat)
    (kwargs : list (string * value)) (env env' : Env) (r : exn + string) :
  load_widgets get_template get_parent fuel kwargs env = Some (env', r) ->
  context env' = context env /\
  below (render_context env') = below (render_context env) /\
  active_blocks env' = active_blocks env /\
  is_Some (active_widgets env') /\
  (forall w, active_widgets env = Some w -> active_widgets env' = Some w).
Proof.
  unfold load_widgets.
  destruct (dict_pop "_soft" (VBool false) kwargs) as [_soft items].
  destruct (active_widgets env) as [w|] eqn:Hactive.
  - rewrite (load_widgets_loop_outcome _ _ _ _ _ _ _ _ eq_refl).
    intros [= <- _]. rewrite Hactive. repeat split; eauto.
  - unfold new_widgets. cbv beta iota.
    rewrite (load_widgets_loop_outcome _ _ _ _ _ _ _ _ eq_refl).
    intros [= <- _]. repeat split; eauto. discriminate.
Qed.

End Frame.

Lemma load_widgets_keeps_scopes_witness :
  load_widgets demo_get_template demo_get_parent 3
    [("nav", VStr "leaf.html"); ("side", VStr "missing.html")] page_env
  = Some (page_env, inl (AttributeError "update")) /\
  context page_env = context page_env /\
  below (render_context page_env) = below (render_context page_env) /\
  active_blocks page_env = active_blocks page_env /\
  active_widgets page_env = Some 0.
Proof.
  assert (Hrun : load_widgets demo_get_template demo_get_parent 3
                   [("nav", VStr "leaf.html"); ("side", VStr "missing.html")]
                   page_env
                 = Some (page_env, inl (AttributeError "update")))
    by reflexivity.
  destruct (load_widgets_keeps_scopes
              demo_get_template demo_get_parent 3 _ page_env page_env _ Hrun)
    as (Hc & Hbelow & Hblocks & _ & Hwidgets).
  split; [exact Hrun|].
  split; [exact Hc|]. split; [exact Hbelow|]. split; [exact Hblocks|].
  apply Hwidgets. reflexivity.
Defined.

Lemma pop_asvar_takes_trailing_as_clause_witness :
  pop_asvar (["size=7"] ++ ["as"; "out"]) = (Some "out", ["size=7"]) /\
  ["as"; "out"; "size=7"] = ["as"; "out"; "size=7"].
Proof.
  split.
  - apply (proj1 (pop_asvar_takes_trailing_as_clause
                    (["size=7"] ++ ["as"; "out"])) "out" ["size=7"]).
    reflexivity.
  - symmetry.
    apply (proj1 (proj2 (pop_asvar_takes_trailing_as_clause
                           ["as"; "out"; "size=7"]))).
    reflexivity.
Defined.
